(** * Spectral change detector: a shallow embedding of the notebook's
    pipeline functions (spectral-change_ncar.ipynb, cell "Functions").

    The notebook drives the Earth Engine platform.  The functions of the
    notebook are embedded below line by line; the platform primitives they
    call ([select], [updateMask], [divide], [copyProperties], [filter],
    [map], [reduce], ...) are given their documented per-pixel meaning.
    Pixel values are exact rationals: the platform computes in binary
    floating point, which this development idealises. *)

From Stdlib Require Import ZArith QArith Qround String List Sorted Lia Lqa.
From stdpp Require Import base option list gmap strings pretty.

Local Open Scope Z_scope.

(** ** Errors *)

(** Failures the platform reports when a computation is evaluated. *)
Inductive ee_error : Type :=
| BandNotFound (pattern : string)
| PropertyNotNumeric (name : string)
| HeterogeneousCollection
| ReducerInputs (expected got : nat).

(** Exceptions a call can end with: the ones Python itself raises in the
    client, and the ones that come back from the platform. *)
Inductive exn : Type :=
| UnboundLocalError (name : string)
| EEException (e : ee_error).

Inductive result (A : Type) : Type :=
| Raise (e : exn)
| Ok (a : A).
Arguments Raise {A} e.
Arguments Ok {A} a.

#[global] Instance result_ret : MRet result := fun _ a => Ok a.
#[global] Instance result_bind : MBind result := fun _ _ f r =>
  match r with
  | Raise e => Raise e
  | Ok a => f a
  end.

Fixpoint mapR {A B} (f : A -> result B) (l : list A) : result (list B) :=
  match l with
  | [] => Ok []
  | a :: l' =>
      b ← f a;
      bs ← mapR f l';
      Ok (b :: bs)
  end.

(** ** Calendar fields of a timestamp

    [system:time_start] is a number of milliseconds since 1970-01-01 UTC.
    [calendarRange] reads the proleptic Gregorian year and month of it. *)
Module Calendar.

Definition ms_per_day : Z := 86400000.

(** Days since the epoch to (year, month), by the era decomposition of
    the Gregorian calendar (400-year eras of 146097 days that start on
    the first of March). *)
Definition civil_from_days (days : Z) : Z * Z :=
  let z := days + 719468 in
  let era := z / 146097 in
  let doe := z - era * 146097 in
  let yoe := (doe - doe / 1460 + doe / 36524 - doe / 146096) / 365 in
  let doy := doe - (365 * yoe + yoe / 4 - yoe / 100) in
  let mp := (5 * doy + 2) / 153 in
  let m := if mp <? 10 then mp + 3 else mp - 9 in
  let y := yoe + era * 400 in
  (if m <=? 2 then y + 1 else y, m).

Definition year_of (ms : Z) : Z := fst (civil_from_days (ms / ms_per_day)).
Definition month_of (ms : Z) : Z := snd (civil_from_days (ms / ms_per_day)).

End Calendar.

(** ** Images and collections *)

Definition pixel : Type := (Z * Z)%type.

(** A band is a raster: a value per pixel, [None] where the pixel is masked. *)
Definition raster : Type := pixel -> option Q.
Definition Band : Type := (string * raster)%type.

Inductive prop_val : Type :=
| PNum (z : Z)
| PStr (s : string).

Record Image : Type := mkImage {
  bands : list Band;
  props : gmap string prop_val
}.

Record Collection : Type := mkCollection {
  images : list Image;
  cprops : gmap string prop_val
}.

Definition band_names (image : Image) : list string := (bands image).*1.

(** Two images are the same image when they have the same properties and
    the same bands, in the same order, with the same mask and numerically
    the same value at every pixel. *)
Definition px_same (v w : option Q) : Prop :=
  match v, w with
  | Some a, Some b => (a == b)%Q
  | None, None => True
  | _, _ => False
  end.
Definition band_same (a b : Band) : Prop :=
  a.1 = b.1 /\ forall p, px_same (a.2 p) (b.2 p).
Definition image_same (a b : Image) : Prop :=
  props a = props b /\ Forall2 band_same (bands a) (bands b).


(** ** Per-pixel arithmetic of the platform *)
Module Px.

Definition truth (b : bool) : Q := if b then 1%Q else 0%Q.
Definition nonzero (q : Q) : bool := negb (Qeq_bool q 0).

Definition bitwiseAnd (k : Z) (v : option Q) : option Q :=
  q ← v; Some (inject_Z (Z.land (Qfloor q) k)).
Definition eq (c : Q) (v : option Q) : option Q :=
  q ← v; Some (truth (Qeq_bool q c)).
Definition lt (c : Q) (v : option Q) : option Q :=
  q ← v; Some (truth (negb (Qle_bool c q))).
Definition lte (c : Q) (v : option Q) : option Q :=
  q ← v; Some (truth (Qle_bool q c)).
Definition And (v w : option Q) : option Q :=
  a ← v; b ← w; Some (truth (nonzero a && nonzero b)).
Definition divide (c : Q) (v : option Q) : option Q :=
  q ← v; Some (q / c)%Q.

(** A pixel stays valid when it was valid and the mask is valid and
    non-zero there. *)
Definition updateMask (m v : option Q) : option Q :=
  match m with
  | Some q => if nonzero q then v else None
  | None => None
  end.

End Px.

Definition lift_band (f : option Q -> option Q) (b : Band) : Band :=
  (b.1, fun p => f (b.2 p)).
Definition lift_band2 (f : option Q -> option Q -> option Q) (a b : Band) : Band :=
  (a.1, fun p => f (a.2 p) (b.2 p)).

(** ** Image methods of the platform *)
Module Img.

(** [image.select(name)]: the single band of that name; an error when the
    image has none. *)
Fixpoint find_band (name : string) (bs : list Band) : option Band :=
  match bs with
  | [] => None
  | b :: bs' => if String.eqb b.1 name then Some b else find_band name bs'
  end.

Definition select (image : Image) (name : string) : result Band :=
  match find_band name (bands image) with
  | Some b => Ok b
  | None => Raise (EEException (BandNotFound name))
  end.

(** [image.updateMask(mask)] with a single-band mask: the mask applies to
    every band; the image keeps its metadata. *)
Definition masked_by (mask : raster) (b : Band) : Band :=
  (b.1, fun p => Px.updateMask (mask p) (b.2 p)).

Definition updateMask (image : Image) (mask : Band) : Image :=
  mkImage (map (masked_by mask.2) (bands image)) (props image).

(** [image.divide(c)]: every band divided by the constant; the result of
    image arithmetic carries no metadata of its operands. *)
Definition divide (image : Image) (c : Q) : Image :=
  mkImage (map (lift_band (Px.divide c)) (bands image)) ∅.

(** [dest.copyProperties(source, names)]: each listed property that the
    source has is written onto the destination. *)
Definition copyProperties (dest source : Image) (names : list string) : Image :=
  mkImage (bands dest)
          (foldl (fun m name =>
                    match props source !! name with
                    | Some v => <[name := v]> m
                    | None => m
                    end) (props dest) names).

Definition set (image : Image) (name : string) (v : prop_val) : Image :=
  mkImage (bands image) (<[name := v]> (props image)).

(** [image.metadata(name)]: a constant band, named after the property,
    holding the numeric value of the property. *)
Definition metadata (image : Image) (name : string) : result Band :=
  match props image !! name with
  | Some (PNum t) => Ok (name, fun _ => Some (inject_Z t))
  | _ => Raise (EEException (PropertyNotNumeric name))
  end.

(** [image.addBands(b)]: the band is appended; when its name is taken it
    gets the first free numeric suffix [_1], [_2], ... *)
Fixpoint fresh_suffix (fuel : nat) (i : nat) (name : string) (taken : list string) : string :=
  let candidate := (name +:+ "_" +:+ pretty i)%string in
  match fuel with
  | O => candidate
  | S fuel' =>
      if bool_decide (candidate ∈ taken) then fresh_suffix fuel' (S i) name taken
      else candidate
  end.

Definition fresh_name (name : string) (taken : list string) : string :=
  if bool_decide (name ∈ taken) then fresh_suffix (length taken) 1 name taken
  else name.

Definition addBands (image : Image) (b : Band) : Image :=
  mkImage (bands image ++ [(fresh_name b.1 (band_names image), b.2)]) (props image).

End Img.

(** ** The masking functions of the notebook *)

Definition time_start : string := "system:time_start".

Definition maskS2clouds (image : Image) : result Image :=
  qa ← Img.select image "QA60";
  (* Bits 10 and 11 are clouds and cirrus, respectively. *)
  let cloudBitMask := Z.shiftl 1 10 in
  let cirrusBitMask := Z.shiftl 1 11 in
  (* Both flags should be set to zero, indicating clear conditions. *)
  let mask := lift_band2 Px.And
                (lift_band (Px.eq 0) (lift_band (Px.bitwiseAnd cloudBitMask) qa))
                (lift_band (Px.eq 0) (lift_band (Px.bitwiseAnd cirrusBitMask) qa)) in
  Ok (Img.copyProperties (Img.divide (Img.updateMask image mask) 10000) image [time_start]).

(** [waterMask] is a global of the notebook. *)
Definition maskWater (waterMask : Image) (image : Image) : result Image :=
  wm ← Img.select waterMask "water_mask";
  Ok (Img.updateMask image (lift_band (Px.lt 1) wm)).

Definition maskS2snow (image : Image) : result Image :=
  snw ← Img.select image "MSK_SNWPRB";
  let mask := lift_band (Px.lt 0.009) snw in
  Ok (Img.copyProperties (Img.updateMask image mask) image [time_start]).

(** The expression [(.3 * 1e4 * R) + (.59 * 1e4 * G) + (.11 * 1e4 * B)]. *)
Definition grayscale_px (R G B : option Q) : option Q :=
  r ← R; g ← G; b ← B;
  Some ((0.3 * 1e4 * r) + (0.59 * 1e4 * g) + (0.11 * 1e4 * b))%Q.

Definition maskWhite (image : Image) : result Image :=
  R ← Img.select image "B4";
  G ← Img.select image "B3";
  B ← Img.select image "B2";
  let grayscale : Band := (R.1, fun p => grayscale_px (R.2 p) (G.2 p) (B.2 p)) in
  let white_mask := lift_band (Px.lte 2000) grayscale in
  Ok (Img.copyProperties (Img.updateMask image white_mask) image [time_start]).

(** ** Reducers *)

(** Reducers of one input; [Rcombine] is [combine] with [sharedInputs=True]. *)
Inductive Reducer1 : Type :=
| Rmean
| RstdDev
| RminMax
| Rmedian
| Rcombine (r1 r2 : Reducer1).

Inductive Reducer : Type :=
| Unary (r : Reducer1)
| RlinearFit.

Module Stat.

Definition sumQ (l : list Q) : Q := foldr Qplus 0%Q l.
Definition count {A} (l : list A) : Q := inject_Z (Z.of_nat (length l)).
Definition mean (l : list Q) : Q := (sumQ l / count l)%Q.

Definition minQ (a b : Q) : Q := if Qle_bool a b then a else b.
Definition maxQ (a b : Q) : Q := if Qle_bool a b then b else a.
Definition minimum (l : list Q) : Q :=
  match l with [] => 0%Q | a :: l' => foldr minQ a l' end.
Definition maximum (l : list Q) : Q :=
  match l with [] => 0%Q | a :: l' => foldr maxQ a l' end.

Fixpoint insert_sorted (x : Q) (l : list Q) : list Q :=
  match l with
  | [] => [x]
  | y :: l' => if Qle_bool x y then x :: l else y :: insert_sorted x l'
  end.
Definition sort (l : list Q) : list Q := foldr insert_sorted [] l.

(** The middle value; the mean of the two middle values for an even count. *)
Definition median (l : list Q) : Q :=
  let s := sort l in
  let n := length s in
  if Nat.even n
  then ((nth (n / 2 - 1) s 0 + nth (n / 2) s 0) / 2)%Q
  else nth (n / 2) s 0%Q.

(** Population variance; the standard deviation is its square root, which
    is not rational: the root function is a parameter. *)
Definition variance (l : list Q) : Q :=
  let m := mean l in
  mean (List.map (fun x => (x - m) * (x - m))%Q l).

(** Least squares of y against x: the first input is the independent
    variable, the second the dependent one.  A fit with no spread in x
    has no slope: the output is masked. *)
Definition linearFit_scale (s : list (Q * Q)) : option Q :=
  let n := count s in
  let sx := sumQ (List.map fst s) in
  let sy := sumQ (List.map snd s) in
  let sxx := sumQ (List.map (fun xy => xy.1 * xy.1)%Q s) in
  let sxy := sumQ (List.map (fun xy => xy.1 * xy.2)%Q s) in
  let d := (n * sxx - sx * sx)%Q in
  if Qeq_bool d 0 then None else Some ((n * sxy - sx * sy) / d)%Q.

Definition linearFit_offset (s : list (Q * Q)) : option Q :=
  scale ← linearFit_scale s;
  Some ((sumQ (List.map snd s) - scale * sumQ (List.map fst s)) / count s)%Q.

End Stat.

(** The named outputs of a one-input reducer.  [sqrtQ] is the square root
    the platform uses for [stdDev]. *)
Fixpoint outputs (sqrtQ : Q -> Q) (r : Reducer1) : list (string * (list Q -> Q)) :=
  match r with
  | Rmean => [("mean", Stat.mean)]
  | RstdDev => [("stdDev", fun l => sqrtQ (Stat.variance l))]
  | RminMax => [("min", Stat.minimum); ("max", Stat.maximum)]
  | Rmedian => [("median", Stat.median)]
  | Rcombine r1 r2 => outputs sqrtQ r1 ++ outputs sqrtQ r2
  end.

(** The valid values of band [i] at pixel [p] across the images. *)
Definition column (i : nat) (p : pixel) (imgs : list Image) : list Q :=
  omap (fun image : Image => b ← bands image !! i; b.2 p) imgs.

(** The valid (x, y) pairs at pixel [p]: a pair counts when both bands are
    valid there. *)
Definition pairs (p : pixel) (imgs : list Image) : list (Q * Q) :=
  omap (fun image : Image =>
          bx ← bands image !! 0%nat;
          by_ ← bands image !! 1%nat;
          x ← bx.2 p;
          y ← by_.2 p;
          Some (x, y)) imgs.

(** The bands a one-input reducer makes of the bands called [names]: one
    per output and input band, called [<band>_<output>], masked where no
    image has a valid value. *)
Definition reduce_unary (sqrtQ : Q -> Q) (r : Reducer1) (names : list string)
  (imgs : list Image) : list Band :=
  flat_map (fun out : string * (list Q -> Q) =>
              imap (fun i name =>
                      ((name +:+ "_" +:+ out.1)%string,
                       fun p => match column i p imgs with
                                | [] => None
                                | vs => Some (out.2 vs)
                                end)) names)
           (outputs sqrtQ r).

(** The two bands of [linearFit]. *)
Definition reduce_linearFit (imgs : list Image) : list Band :=
  [("scale", fun p => Stat.linearFit_scale (pairs p imgs));
   ("offset", fun p => Stat.linearFit_offset (pairs p imgs))].

(** ** Collection methods of the platform *)
Module Coll.

Definition filter (c : Collection) (f : Image -> bool) : Collection :=
  mkCollection (List.filter f (images c)) (cprops c).

Definition map (c : Collection) (f : Image -> result Image) : result Collection :=
  imgs ← mapR f (images c);
  Ok (mkCollection imgs (cprops c)).

Definition size (c : Collection) : Z := Z.of_nat (length (images c)).

Definition set (c : Collection) (name : string) (v : prop_val) : Collection :=
  mkCollection (images c) (<[name := v]> (cprops c)).

Definition fromImages (imgs : list Image) : Collection := mkCollection imgs ∅.

(** [collection.select([names])]: every image keeps the listed bands, in
    the listed order. *)
Definition select (c : Collection) (names : list string) : result Collection :=
  map c (fun image =>
           bs ← mapR (Img.select image) names;
           Ok (mkImage bs (props image))).

(** [collection.reduce(reducer)]: per pixel, across the images.  The
    reduction of an empty collection is an image without bands.  The images
    of a collection that is not empty must agree on their bands; a
    one-input reducer is repeated for every band, [linearFit] takes the two
    bands of the images as x and y. *)
Definition reduce (sqrtQ : Q -> Q) (c : Collection) (r : Reducer) : result Image :=
  match images c with
  | [] => Ok (mkImage [] ∅)
  | first :: rest =>
      let names := band_names first in
      if bool_decide (Forall (fun image => band_names image = names) rest) then
        match r with
        | Unary r1 => Ok (mkImage (reduce_unary sqrtQ r1 names (images c)) ∅)
        | RlinearFit =>
            if bool_decide (length names = 2%nat)
            then Ok (mkImage (reduce_linearFit (images c)) ∅)
            else Raise (EEException (ReducerInputs 2 (length names)))
        end
      else Raise (EEException HeterogeneousCollection)
  end.

End Coll.

(** [ee.Filter.calendarRange(start, end, field)]: passes an image whose
    timestamp has the calendar field within [start..end]; when
    [end < start] the range wraps around. *)
Module Filter.

Inductive field : Type := year | month.

Definition field_of (f : field) (t : Z) : Z :=
  match f with
  | year => Calendar.year_of t
  | month => Calendar.month_of t
  end.

Definition calendarRange (start end_ : Z) (f : field) (image : Image) : bool :=
  match props image !! time_start with
  | Some (PNum t) =>
      let v := field_of f t in
      if start <=? end_ then (start <=? v) && (v <=? end_)
      else (start <=? v) || (v <=? end_)
  | _ => false
  end.

End Filter.

(** ** The notebook's globals

    Every stage reads its configuration from the variables of the notebook
    session.  The record holds the ones the functions below read, and some
    of the others a session carries along ([index], [years], the aggregate
    collection [yearCompCol] and the [trend] image of an earlier cell). *)
Record Notebook : Type := mkNotebook {
  index : string;
  analysis : string;
  start_year : Z;
  end_year : Z;
  start_month : Z;
  end_month : Z;
  index_collection : Collection;
  waterMask : Image;
  years : list Z;
  yearCompCol : Collection;
  trend : Image
}.

(** Reading a local variable that no branch has assigned. *)
Definition local {A} (name : string) (v : option A) : result A :=
  match v with
  | Some a => Ok a
  | None => Raise (UnboundLocalError name)
  end.

Section Pipeline.

Variable sqrtQ : Q -> Q.

(** The local [filtered_dataset] of [annual_images]. *)
Definition annual_images_filtered_dataset (nb : Notebook) (y : Z) : result Collection :=
  (* filter for given year *)
  let range_year := Filter.calendarRange y y Filter.year in
  (* filter for specified month range *)
  let range_month :=
    Filter.calendarRange (start_month nb) (end_month nb) Filter.month in
  (* filter image collection by year and month and add a time band *)
  Coll.map (Coll.filter (Coll.filter (index_collection nb) range_year) range_month)
    (fun image =>
       t ← Img.metadata image time_start;
       Ok (Img.addBands image (lift_band (Px.divide 3.154e10) t))).

Definition annual_images (nb : Notebook) (y : Z) : result Image :=
  filtered_dataset ← annual_images_filtered_dataset nb y;
  let num_images := Coll.size filtered_dataset in
  (* Choose the reducer based on the chosen analysis *)
  let reducer : option Reducer :=
    if String.eqb (analysis nb) "mean" then
      Some (Unary (Rcombine Rmean RstdDev))
    else if String.eqb (analysis nb) "min" || String.eqb (analysis nb) "max" then
      Some (Unary (Rcombine Rmean RminMax))
    else if String.eqb (analysis nb) "median" then
      Some (Unary (Rcombine Rmean Rmedian))
    else None in
  (* Use the combined reducer to get the statistics *)
  reducer ← local "reducer" reducer;
  stats ← Coll.reduce sqrtQ filtered_dataset reducer;
  Ok (Img.set (Img.set stats "year" (PNum y)) "num" (PNum num_images)).

(** The local [filtered_dataset] of [intrayear]; the parameter shadows
    the global of the same name. *)
Definition intrayear_filtered_dataset (nb : Notebook) (index_collection : Collection)
  : result Collection :=
  let range_year :=
    Filter.calendarRange (start_year nb) (end_year nb) Filter.year in
  let range_month :=
    Filter.calendarRange (start_month nb) (end_month nb) Filter.month in
  (* add a time band with the year to each image *)
  Coll.map (Coll.filter (Coll.filter index_collection range_year) range_month)
    (fun image =>
       t ← Img.metadata image time_start;
       Ok (Img.addBands image (lift_band (Px.divide 3.154e10) t))).

Definition intrayear (nb : Notebook) (index_collection : Collection) : result Collection :=
  filtered_dataset ← intrayear_filtered_dataset nb index_collection;
  let num_images := Coll.size filtered_dataset in
  Ok (Coll.set (Coll.set filtered_dataset "year" (PNum (start_year nb)))
               "num" (PNum num_images)).

(** The local [filtered_dataset] of [annual_trend]. *)
Definition annual_trend_filtered_dataset (nb : Notebook) (y : Z) : result Collection :=
  let range_year := Filter.calendarRange y y Filter.year in
  let range_month :=
    Filter.calendarRange (start_month nb) (end_month nb) Filter.month in
  (* add a time band with the year to each image *)
  Coll.map (Coll.filter (Coll.filter (index_collection nb) range_year) range_month)
    (fun image =>
       t ← Img.metadata image time_start;
       Ok (Img.addBands image (lift_band (Px.divide 3.154e10) t))).

Definition annual_trend (nb : Notebook) (y : Z) : result Image :=
  filtered_dataset ← annual_trend_filtered_dataset nb y;
  let num_images := Coll.size filtered_dataset in
  (* Use the combined reducer to get the statistics *)
  stats ← Coll.reduce sqrtQ filtered_dataset RlinearFit;
  Ok (Img.set (Img.set stats "year" (PNum y)) "num" (PNum num_images)).

End Pipeline.

Definition createTimeBand (image : Image) : result Image :=
  t ← Img.metadata image time_start;
  Ok (Img.addBands image (lift_band (Px.divide 3.154e10) t)).

(** ** The trend cell

    Cell "Option 1: temporal trend".  Within one year the images of
    [intrayear] are fitted; across years the yearly statistics of
    [annual_images] are.  In both branches the bands are selected with the
    time band first, the independent variable of the fit. *)
Definition temporal_trend (sqrtQ : Q -> Q) (nb : Notebook) : result Image :=
  if start_year nb =? end_year nb then
    intrayear_collection ← intrayear nb (index_collection nb);
    selected ← Coll.select intrayear_collection [time_start; index nb];
    Coll.reduce sqrtQ selected RlinearFit
  else
    (* Map over years to get yearly statistics *)
    yearwise_ndvi ← mapR (annual_images sqrtQ nb) (years nb);
    let yearCompCol := Coll.fromImages yearwise_ndvi in
    selected ← Coll.select yearCompCol
                 ["system:time_start_mean";
                  (index nb +:+ "_" +:+ analysis nb)%string];
    Coll.reduce sqrtQ selected RlinearFit.

(** ** What the results speak of *)

Definition returns {A} (r : result A) : Prop := exists a, r = Ok a.


Definition valid_analysis (a : string) : Prop :=
  a = "mean" \/ a = "median" \/ a = "min" \/ a = "max".

(** The images of the ambient collection that pass the calendar filter
    for year [y] and the month window of the notebook. *)
Definition in_window (nb : Notebook) (y : Z) (image : Image) : bool :=
  Filter.calendarRange y y Filter.year image
  && Filter.calendarRange (start_month nb) (end_month nb) Filter.month image.

Definition window (nb : Notebook) (y : Z) : list Image :=
  List.filter (in_window nb y) (images (index_collection nb)).

(** The images [intrayear] keeps of the collection it is given. *)
Definition intrayear_window (nb : Notebook) (c : Collection) : list Image :=
  List.filter (fun image =>
                 Filter.calendarRange (start_year nb) (end_year nb) Filter.year image
                 && Filter.calendarRange (start_month nb) (end_month nb)
                      Filter.month image)
              (images c).

Definition homogeneous (l : list Image) : Prop :=
  forall a b, a ∈ l -> b ∈ l -> band_names a = band_names b.


(** [image] is [src] with one more band, constant over the raster: the
    timestamp of [src] divided by [c]. *)
Definition time_band_added_by (c : Q) (src image : Image) : Prop :=
  exists t name,
    props src !! time_start = Some (PNum t)
    /\ image = mkImage (bands src ++ [(name, fun _ => Some (inject_Z t / c)%Q)])
                       (props src).

(** The value of a band of a result at a pixel. *)
Definition band_value (r : result Image) (name : string) (p : pixel) : option Q :=
  match r with
  | Ok image =>
      match Img.select image name with
      | Ok b => b.2 p
      | Raise _ => None
      end
  | Raise _ => None
  end.

(** The timestamp of an image that has a numeric one. *)
Definition time_of (image : Image) : Z :=
  match props image !! time_start with
  | Some (PNum t) => t
  | _ => 0
  end.

(** What the function mapped over the filtered images makes of an image
    that has a numeric timestamp. *)
Definition with_time_band (image : Image) : Image :=
  Img.addBands image
    (time_start, fun _ : pixel => Some (inject_Z (time_of image) / 3.154e10)%Q).

(** The reducer [annual_images] has assigned when the chain of tests on
    [analysis] is over; [None] when no branch was taken. *)
Definition chosen_reducer (a : string) : option Reducer :=
  if String.eqb a "mean" then Some (Unary (Rcombine Rmean RstdDev))
  else if String.eqb a "min" || String.eqb a "max" then
    Some (Unary (Rcombine Rmean RminMax))
  else if String.eqb a "median" then Some (Unary (Rcombine Rmean Rmedian))
  else None.

(** ** Series of samples of the fit *)

Section Samples.
Local Open Scope Q_scope.

(** The numerator of the least-squares slope. *)
Definition covariance_sum (s : list (Q * Q)) : Q :=
  Stat.count s * Stat.sumQ (List.map (fun xy => xy.1 * xy.2) s)
  - Stat.sumQ (List.map fst s) * Stat.sumQ (List.map snd s).

(** The products of the deviations of the samples from the point (x, y). *)
Definition cross_sum (x y : Q) (s : list (Q * Q)) : Q :=
  Stat.sumQ (List.map (fun xy => (xy.1 - x) * (xy.2 - y)) s).

(** Both coordinates of the later sample are higher. *)
Definition rising (a b : Q * Q) : Prop := a.1 < b.1 /\ a.2 < b.2.

(** The value at a pixel of the first band of an image. *)
Definition index_value (image : Image) (p : pixel) : option Q :=
  b ← head (bands image); b.2 p.

(** Both pixels are valid and the second value is the higher one. *)
Definition px_lt (v w : option Q) : Prop :=
  match v, w with
  | Some a, Some b => a < b
  | _, _ => False
  end.

(** The images have the index as their only band, valid at [p]. *)
Definition index_only (name : string) (p : pixel) (image : Image) : Prop :=
  exists r q, bands image = [(name, r)] /\ r p = Some q.

(** Later images have a higher index at [p]. *)
Definition rising_in_time (p : pixel) (a b : Image) : Prop :=
  (time_of a < time_of b)%Z /\ px_lt (index_value a p) (index_value b p).

(** The sample of the fit an image contributes at [p]: index and time. *)
Definition sample_of (p : pixel) (image : Image) : Q * Q :=
  (default 0 (index_value image p), inject_Z (time_of image) / 3.154e10).

End Samples.

(** ** A session to evaluate the pipeline on *)

(** A raw image, not yet scaled, with the bands the masking steps read;
    [QA60] is clear everywhere. *)
Definition clear_image : Image :=
  mkImage [("B4", fun _ => Some 5000%Q); ("B3", fun _ => Some 4000%Q);
           ("B2", fun _ => Some 3000%Q); ("MSK_SNWPRB", fun _ => Some 0%Q);
           ("QA60", fun _ => Some 0%Q)]
          {[ time_start := PNum 1592179200000 ]}.

Definition water_image : Image :=
  mkImage [("water_mask", fun _ => Some 0%Q)] ∅.

(** Two images every summer from 2019 to 2023, of the 15th of June and the
    15th of August, whose index grows along the time band at 0.1 per unit
    of it (per year). *)
Definition rising_image (t : Z) : Image :=
  mkImage [("NDVI", fun _ => Some (0.1 * (inject_Z t / 3.154e10) - 4.7)%Q)]
          {[ time_start := PNum t ]}.

Definition rising_collection : Collection :=
  mkCollection
    (List.map rising_image
       [1560556800000; 1565827200000; 1592179200000; 1597449600000;
        1623715200000; 1628985600000; 1655251200000; 1660521600000;
        1686787200000; 1692057600000])
    ∅.

Definition no_image : Image := mkImage [] ∅.
Definition no_collection : Collection := mkCollection [] ∅.

Definition session (analysis : string) : Notebook :=
  mkNotebook "NDVI" analysis 2019 2023 6 8 rising_collection no_image
             [2019; 2020; 2021; 2022; 2023] no_collection no_image.


(** ** The vegetation index

    [image.normalizedDifference([b1, b2])]: a band called [nd] holding
    (first - second) / (first + second); a pixel where either input is
    masked or negative is masked.  Where the sum is zero the quotient is
    zero, as for the division of the platform. *)
Definition normalizedDifference_px (v w : option Q) : option Q :=
  a ← v; b ← w;
  if Qle_bool 0 a && Qle_bool 0 b then Some ((a - b) / (a + b))%Q else None.

Definition normalizedDifference (image : Image) (b1 b2 : string) : result Band :=
  first ← Img.select image b1;
  second ← Img.select image b2;
  Ok ("nd", fun p => normalizedDifference_px (first.2 p) (second.2 p)).

Definition rename (b : Band) (name : string) : Band := (name, b.2).

Definition addNDVI (image : Image) : result Image :=
  nd ← normalizedDifference image "B8" "B4";
  let ndvi := rename nd "NDVI" in
  Ok (Img.copyProperties (Img.addBands image ndvi) image [time_start]).

(** ** The masking steps in the order of the dataset cell

    [.map(maskS2clouds).map(maskS2snow).map(maskWhite).map(maskWater)], as
    it acts on one image. *)
Definition masking_steps (waterMask image : Image) : result Image :=
  image ← maskS2clouds image;
  image ← maskS2snow image;
  image ← maskWhite image;
  maskWater waterMask image.

(** What the steps test, on the raw values of the image: the cloud and
    cirrus bits of [QA60], the snow probability, the brightness of the
    three visible bands and the water flag. *)
Definition clear_px (qa : option Q) : bool :=
  match qa with
  | Some q => negb (Z.testbit (Qfloor q) 10) && negb (Z.testbit (Qfloor q) 11)
  | None => false
  end.

Definition snow_free_px (snw : option Q) : bool :=
  match snw with
  | Some s => negb (Qle_bool 90 s)
  | None => false
  end.

Definition not_white_px (R G B : option Q) : bool :=
  match R, G, B with
  | Some r, Some g, Some b => Qle_bool (0.3 * r + 0.59 * g + 0.11 * b) 2000
  | _, _, _ => false
  end.

Definition dry_px (w : option Q) : bool :=
  match w with
  | Some q => negb (Qle_bool 1 q)
  | None => false
  end.

(** Two results agree: both raise, or both return the same image. *)
Definition result_same (r1 r2 : result Image) : Prop :=
  match r1, r2 with
  | Ok a, Ok b => image_same a b
  | Raise _, Raise _ => True
  | _, _ => False
  end.

(** [out] has the bands of [image], under the same names and in the same
    order, and a pixel of [out] is either masked or as it is in [image]. *)
Definition only_masks (image out : Image) : Prop :=
  band_names out = band_names image
  /\ forall (i : nat) (b : Band), bands image !! i = Some b ->
       exists b', bands out !! i = Some b'
         /\ forall p, b'.2 p = None \/ b'.2 p = b.2 p.

(** A raw image with a cloud over the column of pixels at x = 0. *)
Definition cloudy_image : Image :=
  mkImage [("B4", fun _ => Some 1200%Q); ("B3", fun _ => Some 1000%Q);
           ("B2", fun _ => Some 800%Q); ("B8", fun _ => Some 3000%Q);
           ("MSK_SNWPRB", fun _ => Some 5%Q);
           ("QA60", fun p => Some (if p.1 =? 0 then 1024 else 0)%Q)]
          {[ time_start := PNum 1592179200000 ]}.

(** * Results *)

(** ** The error monad *)

Lemma bind_Ok_inv {A B} (r : result A) (k : A -> result B) (b : B) :
  r ≫= k = Ok b -> exists a, r = Ok a /\ k a = Ok b.
Proof. destruct r as [e|a]; simpl; [discriminate | eauto]. Qed.

Lemma mapR_Ok {A B} (f : A -> result B) (g : A -> B) (l : list A) :
  Forall (fun a => f a = Ok (g a)) l -> mapR f l = Ok (List.map g l).
Proof.
  induction 1 as [|a l Ha _ IH]; simpl; [reflexivity|].
  rewrite Ha; simpl. rewrite IH; reflexivity.
Qed.


(** ** Masking *)




Lemma copyProperties_time_start (dest source : Image) :
  props (Img.copyProperties dest source [time_start]) !! time_start
  = match props source !! time_start with
    | Some v => Some v
    | None => props dest !! time_start
    end.
Proof.
  simpl. destruct (props source !! time_start) eqn:E; [|reflexivity].
  apply lookup_insert_eq.
Qed.







Lemma land_bit_clear (a n : Z) :
  0 <= n -> Z.testbit a n = false -> Z.land a (Z.shiftl 1 n) = 0.
Proof.
  intros Hn Hbit. rewrite Z.shiftl_1_l. apply Z.bits_inj'. intros m Hm.
  rewrite Z.land_spec, Z.bits_0, (Z.pow2_bits_eqb n m Hn).
  destruct (Z.eqb_spec n m) as [->|_]; [rewrite Hbit|]; apply andb_false_r || reflexivity.
Qed.



(** C6.  Every masking step preserves the capture timestamp: the image a
    masking function returns carries the same [system:time_start] as the
    image it was given. *)
Theorem masking_preserves_time_start (waterMask image out : Image) :
  maskS2clouds image = Ok out \/ maskWater waterMask image = Ok out
  \/ maskS2snow image = Ok out \/ maskWhite image = Ok out ->
  props out !! time_start = props image !! time_start.
Proof.
  intros [H|[H|[H|H]]].
  - unfold maskS2clouds in H. apply bind_Ok_inv in H as (qa & _ & H).
    injection H as <-. rewrite copyProperties_time_start.
    destruct (props image !! time_start); reflexivity.
  - unfold maskWater in H. apply bind_Ok_inv in H as (wm & _ & H).
    injection H as <-. reflexivity.
  - unfold maskS2snow in H. apply bind_Ok_inv in H as (snw & _ & H).
    injection H as <-. rewrite copyProperties_time_start.
    destruct (props image !! time_start) eqn:E; [reflexivity | exact E].
  - unfold maskWhite in H. apply bind_Ok_inv in H as (R & _ & H).
    apply bind_Ok_inv in H as (G & _ & H).
    apply bind_Ok_inv in H as (B & _ & H).
    injection H as <-. rewrite copyProperties_time_start.
    destruct (props image !! time_start) eqn:E; [reflexivity | exact E].
Qed.

Lemma masking_preserves_time_start_witness :
  (exists out, maskS2clouds clear_image = Ok out
     /\ props out !! time_start = Some (PNum 1592179200000))
  /\ (exists out, maskWater water_image clear_image = Ok out
        /\ props out !! time_start = Some (PNum 1592179200000))
  /\ (exists out, maskS2snow clear_image = Ok out
        /\ props out !! time_start = Some (PNum 1592179200000))
  /\ (exists out, maskWhite clear_image = Ok out
        /\ props out !! time_start = Some (PNum 1592179200000)).
Proof.
  repeat split; (eexists; split; [reflexivity|]);
    apply (masking_preserves_time_start water_image clear_image).
  - left; reflexivity.
  - right; left; reflexivity.
  - right; right; left; reflexivity.
  - right; right; right; reflexivity.
Defined.

Lemma cloud_mask_clear (qa : Band) (p : pixel) (q : Q) :
  qa.2 p = Some q ->
  Z.testbit (Qfloor q) 10 = false -> Z.testbit (Qfloor q) 11 = false ->
  (lift_band2 Px.And
     (lift_band (Px.eq 0) (lift_band (Px.bitwiseAnd (Z.shiftl 1 10)) qa))
     (lift_band (Px.eq 0) (lift_band (Px.bitwiseAnd (Z.shiftl 1 11)) qa))).2 p
  = Some 1%Q.
Proof.
  intros Hq H10 H11. cbn [lift_band lift_band2 fst snd]. rewrite Hq.
  unfold Px.bitwiseAnd; cbn [mbind option_bind].
  rewrite (land_bit_clear _ 10), (land_bit_clear _ 11) by (lia || assumption).
  reflexivity.
Qed.

(** C10.  [maskS2clouds] rescales as well as masks: on the pixels whose
    [QA60] value has the cloud bit (10) and the cirrus bit (11) both zero,
    every band of the output is the band of the input divided by 10000; a
    valid value other than zero is therefore changed. *)
Theorem maskS2clouds_rescales (image out : Image) :
  maskS2clouds image = Ok out ->
  exists qa, Img.select image "QA60" = Ok qa
    /\ band_names out = band_names image
    /\ forall (i : nat) (b : Band) (p : pixel) (q : Q),
         bands image !! i = Some b ->
         qa.2 p = Some q ->
         Z.testbit (Qfloor q) 10 = false ->
         Z.testbit (Qfloor q) 11 = false ->
         exists b', bands out !! i = Some b'
           /\ b'.2 p = (fun v => v / 10000)%Q <$> b.2 p
           /\ forall v, b.2 p = Some v -> ~ (v == 0)%Q ->
                exists v', b'.2 p = Some v' /\ ~ (v' == v)%Q.
Proof.
  intros H. unfold maskS2clouds in H.
  apply bind_Ok_inv in H as (qa & Hsel & H). injection H as <-.
  exists qa. split; [exact Hsel|]. split.
  - unfold band_names; cbn [Img.copyProperties Img.divide Img.updateMask bands].
    rewrite <- !list_fmap_compose. apply list_fmap_ext. intros _ b _. reflexivity.
  - intros i b p q Hb Hq H10 H11.
    cbn [Img.copyProperties Img.divide Img.updateMask bands].
    rewrite !list_lookup_fmap, Hb. eexists; split; [reflexivity|].
    cbn [lift_band Img.masked_by fst snd]. unfold Px.updateMask.
    rewrite (cloud_mask_clear qa p q Hq H10 H11).
    change (Px.nonzero 1) with true; cbn iota.
    split; [destruct (b.2 p); reflexivity|].
    intros v Hv Hnz. rewrite Hv. eexists; split; [reflexivity|].
    intros Heq. apply Hnz. unfold Qdiv in Heq.
    change (/ 10000)%Q with (1 # 10000)%Q in Heq. lra.
Qed.

Lemma maskS2clouds_rescales_witness :
  exists out b', maskS2clouds clear_image = Ok out
    /\ bands out !! 0%nat = Some b'
    /\ b'.2 (0, 0) = Some (5000 / 10000)%Q.
Proof.
  destruct (maskS2clouds_rescales clear_image _ eq_refl)
    as (qa & Hsel & _ & Hpx).
  injection Hsel as <-.
  destruct (Hpx 0%nat _ (0, 0) 0%Q eq_refl eq_refl eq_refl eq_refl)
    as (b' & Hb' & Hval & _).
  eexists; exists b'. split; [reflexivity|]. split; [exact Hb' | exact Hval].
Defined.

(** ** The filtered datasets *)

Lemma calendarRange_time (s e : Z) (f : Filter.field) (image : Image) :
  Filter.calendarRange s e f image = true ->
  props image !! time_start = Some (PNum (time_of image)).
Proof.
  unfold Filter.calendarRange, time_of.
  destruct (props image !! time_start) as [[t|?]|]; [reflexivity | discriminate..].
Qed.

Lemma time_band_added (image : Image) :
  props image !! time_start = Some (PNum (time_of image)) ->
  (t ← Img.metadata image time_start;
   Ok (Img.addBands image (lift_band (Px.divide 3.154e10) t)))
  = Ok (with_time_band image).
Proof. intros H. unfold Img.metadata. rewrite H. reflexivity. Qed.

Lemma filter_twice {A} (f g : A -> bool) (l : list A) :
  List.filter g (List.filter f l) = List.filter (fun a => f a && g a) l.
Proof.
  induction l as [|a l IH]; simpl; [reflexivity|].
  destruct (f a); simpl; [destruct (g a)|]; rewrite ?IH; reflexivity.
Qed.

Lemma filtered_dataset_Ok (c : Collection) (s1 e1 s2 e2 : Z) :
  Coll.map
    (Coll.filter (Coll.filter c (Filter.calendarRange s1 e1 Filter.year))
                 (Filter.calendarRange s2 e2 Filter.month))
    (fun image =>
       t ← Img.metadata image time_start;
       Ok (Img.addBands image (lift_band (Px.divide 3.154e10) t)))
  = Ok (mkCollection
          (List.map with_time_band
             (List.filter (fun image =>
                             Filter.calendarRange s1 e1 Filter.year image
                             && Filter.calendarRange s2 e2 Filter.month image)
                          (images c)))
          (cprops c)).
Proof.
  unfold Coll.map, Coll.filter; cbn [images cprops].
  rewrite filter_twice, (mapR_Ok _ with_time_band); [reflexivity|].
  apply List.Forall_forall. intros image Hin.
  apply List.filter_In in Hin as [_ Hpass].
  apply andb_prop in Hpass as [Hy _].
  apply time_band_added. exact (calendarRange_time _ _ _ _ Hy).
Qed.

Lemma annual_images_filtered_dataset_Ok (nb : Notebook) (y : Z) :
  annual_images_filtered_dataset nb y
  = Ok (mkCollection (List.map with_time_band (window nb y))
                     (cprops (index_collection nb))).
Proof. apply filtered_dataset_Ok. Qed.

Lemma annual_trend_filtered_dataset_Ok (nb : Notebook) (y : Z) :
  annual_trend_filtered_dataset nb y
  = Ok (mkCollection (List.map with_time_band (window nb y))
                     (cprops (index_collection nb))).
Proof. apply filtered_dataset_Ok. Qed.

(** ** The aggregator *)

Lemma chosen_reducer_valid (a : string) :
  valid_analysis a -> exists r, chosen_reducer a = Some (Unary r).
Proof.
  intros [ -> | [ -> | [ -> | -> ] ] ]; eexists; reflexivity.
Qed.

Lemma chosen_reducer_invalid (a : string) :
  ~ valid_analysis a -> chosen_reducer a = None.
Proof.
  intros H. unfold chosen_reducer, valid_analysis in *.
  destruct (String.eqb_spec a "mean"); [tauto|].
  destruct (String.eqb_spec a "min"); [tauto|].
  destruct (String.eqb_spec a "max"); [tauto|].
  destruct (String.eqb_spec a "median"); [tauto|].
  reflexivity.
Qed.

Lemma annual_images_unfold (sqrtQ : Q -> Q) (nb : Notebook) (y : Z) :
  annual_images sqrtQ nb y
  = (let filtered_dataset :=
       mkCollection (List.map with_time_band (window nb y))
                    (cprops (index_collection nb)) in
     reducer ← local "reducer" (chosen_reducer (analysis nb));
     stats ← Coll.reduce sqrtQ filtered_dataset reducer;
     Ok (Img.set (Img.set stats "year" (PNum y))
                 "num" (PNum (Coll.size filtered_dataset)))).
Proof.
  unfold annual_images. rewrite annual_images_filtered_dataset_Ok. reflexivity.
Qed.

Lemma annual_trend_unfold (sqrtQ : Q -> Q) (nb : Notebook) (y : Z) :
  annual_trend sqrtQ nb y
  = (let filtered_dataset :=
       mkCollection (List.map with_time_band (window nb y))
                    (cprops (index_collection nb)) in
     stats ← Coll.reduce sqrtQ filtered_dataset RlinearFit;
     Ok (Img.set (Img.set stats "year" (PNum y))
                 "num" (PNum (Coll.size filtered_dataset)))).
Proof.
  unfold annual_trend. rewrite annual_trend_filtered_dataset_Ok. reflexivity.
Qed.

(** C1.  With an analysis mode other than mean, median, min and max a call
    of [annual_images] fails: no branch assigns the reducer, no reducer is
    defaulted to and no image is produced; the call ends with the error of
    reading the unassigned local. *)
Theorem annual_images_unknown_analysis (sqrtQ : Q -> Q) (nb : Notebook) (y : Z) :
  ~ valid_analysis (analysis nb) ->
  annual_images sqrtQ nb y = Raise (UnboundLocalError "reducer").
Proof.
  intros H. rewrite annual_images_unfold. cbv zeta.
  rewrite (chosen_reducer_invalid _ H). reflexivity.
Qed.

Lemma band_names_with_time_band (image : Image) :
  band_names (with_time_band image)
  = band_names image ++ [Img.fresh_name time_start (band_names image)].
Proof. unfold band_names, with_time_band, Img.addBands; simpl. rewrite fmap_app. reflexivity. Qed.

Lemma homogeneous_with_time_band (l : list Image) :
  homogeneous l -> homogeneous (List.map with_time_band l).
Proof.
  intros H a b Ha Hb.
  apply list_elem_of_In, List.in_map_iff in Ha as (a' & <- & Ha').
  apply list_elem_of_In, List.in_map_iff in Hb as (b' & <- & Hb').
  rewrite !band_names_with_time_band.
  rewrite (H a' b') by (apply list_elem_of_In; assumption). reflexivity.
Qed.

Lemma reduce_unary_returns (sqrtQ : Q -> Q) (c : Collection) (r : Reducer1) :
  homogeneous (images c) -> returns (Coll.reduce sqrtQ c (Unary r)).
Proof.
  intros H. unfold Coll.reduce.
  destruct (images c) as [|first rest]; [eexists; reflexivity|].
  rewrite bool_decide_eq_true_2; [eexists; reflexivity|].
  apply Forall_forall. intros image Hin.
  apply H; [right; exact Hin | left].
Qed.

(** C2.  For each of the four analysis modes and every year, the image
    [annual_images] returns carries a [num] property equal to the number of
    images of the ambient collection that pass the calendar filter for that
    year and month window, zero included; and an image is returned whenever
    the images in the window agree on their bands. *)
Theorem annual_images_num (sqrtQ : Q -> Q) (nb : Notebook) (y : Z) :
  valid_analysis (analysis nb) ->
  (forall image, annual_images sqrtQ nb y = Ok image ->
     props image !! "num" = Some (PNum (Z.of_nat (length (window nb y)))))
  /\ (homogeneous (window nb y) -> returns (annual_images sqrtQ nb y)).
Proof.
  intros Hvalid. rewrite annual_images_unfold. cbv zeta.
  destruct (chosen_reducer_valid _ Hvalid) as (r & ->). cbn [local mbind result_bind].
  split.
  - intros image H. apply bind_Ok_inv in H as (stats & _ & H). injection H as <-.
    cbn [Img.set props]. rewrite lookup_insert_eq.
    unfold Coll.size; cbn [images]. rewrite List.length_map. reflexivity.
  - intros Hhom.
    destruct (reduce_unary_returns sqrtQ
                (mkCollection (List.map with_time_band (window nb y))
                              (cprops (index_collection nb))) r
                (homogeneous_with_time_band _ Hhom)) as (stats & ->).
    eexists; reflexivity.
Qed.

(** ** Years without images *)






(** ** Evaluations on the session *)

Lemma annual_images_unknown_analysis_witness :
  annual_images (fun q => q) (session "sum") 2020
  = Raise (UnboundLocalError "reducer").
Proof.
  apply (annual_images_unknown_analysis (fun q => q) (session "sum") 2020).
  intros [H|[H|[H|H]]]; discriminate H.
Defined.

Lemma annual_images_num_witness :
  exists image, annual_images (fun q => q) (session "max") 2020 = Ok image
                /\ props image !! "num" = Some (PNum 2).
Proof.
  destruct (annual_images_num (fun q => q) (session "max") 2020) as [Hnum Hret].
  { right; right; right; reflexivity. }
  destruct Hret as [image Himage].
  { assert (window (session "max") 2020
            = [rising_image 1592179200000; rising_image 1597449600000]) as ->
      by (vm_compute; reflexivity).
    intros a b Ha Hb.
    apply elem_of_cons in Ha as [->|Ha]; [|apply list_elem_of_singleton in Ha as ->];
      (apply elem_of_cons in Hb as [->|Hb]; [|apply list_elem_of_singleton in Hb as ->]);
      reflexivity. }
  exists image. split; [exact Himage | exact (Hnum image Himage)].
Defined.


(** ** Statelessness *)



(** ** The time band *)

Lemma with_time_band_added (l : list Image) :
  Forall (fun image => props image !! time_start = Some (PNum (time_of image))) l ->
  Forall2 (time_band_added_by 3.154e10) l (List.map with_time_band l).
Proof.
  induction 1 as [|image l H _ IH]; simpl; constructor; [|exact IH].
  exists (time_of image), (Img.fresh_name time_start (band_names image)).
  split; [exact H | reflexivity].
Qed.

Lemma passes_has_time (s1 e1 s2 e2 : Z) (l : list Image) :
  Forall (fun image => props image !! time_start = Some (PNum (time_of image)))
    (List.filter (fun image =>
                    Filter.calendarRange s1 e1 Filter.year image
                    && Filter.calendarRange s2 e2 Filter.month image) l).
Proof.
  apply List.Forall_forall. intros image Hin.
  apply List.filter_In in Hin as [_ Hpass].
  apply andb_prop in Hpass as [Hy _]. exact (calendarRange_time _ _ _ _ Hy).
Qed.

(** C7.  In all three trend paths the dataset handed on to the fit is the
    window of images with a time band added to each: the image's
    [system:time_start] in milliseconds divided by 3.154e10, the same
    literal in [annual_images], [intrayear] and [annual_trend], which no
    variable of the session enters.  The divisor lies between the
    milliseconds of 365 and of 366 days, so the band counts years. *)
Theorem time_band_constant (nb : Notebook) (y : Z) (c : Collection) :
  (exists ds, annual_images_filtered_dataset nb y = Ok ds
     /\ Forall2 (time_band_added_by 3.154e10) (window nb y) (images ds))
  /\ (exists ds, intrayear_filtered_dataset nb c = Ok ds
        /\ Forall2 (time_band_added_by 3.154e10) (intrayear_window nb c) (images ds))
  /\ (exists ds, annual_trend_filtered_dataset nb y = Ok ds
        /\ Forall2 (time_band_added_by 3.154e10) (window nb y) (images ds))
  /\ (inject_Z (365 * Calendar.ms_per_day) < 3.154e10
      /\ 3.154e10 < inject_Z (366 * Calendar.ms_per_day))%Q.
Proof.
  split; [|split; [|split]].
  - eexists; split; [apply annual_images_filtered_dataset_Ok|].
    apply with_time_band_added, passes_has_time.
  - eexists; split; [apply filtered_dataset_Ok|].
    apply with_time_band_added, passes_has_time.
  - eexists; split; [apply annual_trend_filtered_dataset_Ok|].
    apply with_time_band_added, passes_has_time.
  - split; reflexivity.
Qed.

(** ** The fit of [annual_trend]

    The images [annual_trend] reduces carry the index band first and the
    time band, appended by [addBands], second; [linearFit] takes its first
    input as x.  The fit is therefore of time against the index. *)

Section Fit.
Local Open Scope Q_scope.

Lemma count_cons {A} (a : A) (l : list A) :
  Stat.count (a :: l) == Stat.count l + 1.
Proof.
  unfold Stat.count. cbn [length]. rewrite Nat2Z.inj_succ, <- Z.add_1_r.
  rewrite inject_Z_plus. reflexivity.
Qed.

Lemma cross_sum_expand (x y : Q) (s : list (Q * Q)) :
  cross_sum x y s
  == Stat.sumQ (List.map (fun xy => xy.1 * xy.2) s)
     - x * Stat.sumQ (List.map snd s) - y * Stat.sumQ (List.map fst s)
     + Stat.count s * x * y.
Proof.
  unfold cross_sum. induction s as [|[a b] s IH].
  - change (Stat.count (@nil (Q * Q))) with 0. cbn [List.map Stat.sumQ foldr]. ring.
  - rewrite count_cons. cbn [List.map Stat.sumQ foldr fst snd] in *.
    fold (Stat.sumQ (List.map (fun xy => (xy.1 - x) * (xy.2 - y)) s)).
    fold (Stat.sumQ (List.map (fun xy => xy.1 * xy.2) s)).
    fold (Stat.sumQ (List.map fst s)). fold (Stat.sumQ (List.map snd s)).
    rewrite IH. ring.
Qed.

Lemma covariance_sum_cons (x y : Q) (s : list (Q * Q)) :
  covariance_sum ((x, y) :: s) == covariance_sum s + cross_sum x y s.
Proof.
  rewrite cross_sum_expand. unfold covariance_sum. rewrite count_cons.
  cbn [List.map Stat.sumQ foldr fst snd].
  fold (Stat.sumQ (List.map (fun xy => xy.1 * xy.2) s)).
  fold (Stat.sumQ (List.map fst s)). fold (Stat.sumQ (List.map snd s)).
  ring.
Qed.

Lemma cross_sum_nonneg (x y : Q) (s : list (Q * Q)) :
  Forall (rising (x, y)) s -> 0 <= cross_sum x y s.
Proof.
  unfold cross_sum. induction 1 as [|[a b] s [Ha Hb] _ IH].
  - cbn [List.map Stat.sumQ foldr]. lra.
  - cbn [List.map Stat.sumQ foldr fst snd] in *.
    fold (Stat.sumQ (List.map (fun xy => (xy.1 - x) * (xy.2 - y)) s)).
    assert (0 < (a - x) * (b - y)) by (apply Qmult_lt_0_compat; lra).
    lra.
Qed.

Lemma cross_sum_pos (x y : Q) (s : list (Q * Q)) :
  s <> [] -> Forall (rising (x, y)) s -> 0 < cross_sum x y s.
Proof.
  intros Hne H. destruct H as [|[a b] s [Ha Hb] Hs]; [congruence|].
  pose proof (cross_sum_nonneg x y s Hs) as Hnn.
  unfold cross_sum in *. cbn [List.map Stat.sumQ foldr fst snd] in *.
  fold (Stat.sumQ (List.map (fun xy => (xy.1 - x) * (xy.2 - y)) s)).
  assert (0 < (a - x) * (b - y)) by (apply Qmult_lt_0_compat; lra).
  lra.
Qed.

Lemma covariance_sum_rising (s : list (Q * Q)) :
  StronglySorted rising s ->
  0 <= covariance_sum s /\ ((2 <= length s)%nat -> 0 < covariance_sum s).
Proof.
  induction 1 as [|[x y] s Hs [IH0 IH] Hall].
  - split; [unfold covariance_sum; change (Stat.count (@nil (Q * Q))) with 0;
             cbn [List.map Stat.sumQ foldr]; lra | cbn; lia].
  - rewrite covariance_sum_cons. split.
    + pose proof (cross_sum_nonneg x y s Hall). lra.
    + intros Hlen. assert (s <> []) as Hne by (destruct s; [cbn in Hlen; lia | congruence]).
      pose proof (cross_sum_pos x y s Hne Hall). lra.
Qed.

Lemma StronglySorted_map {A B} (R : A -> A -> Prop) (S : B -> B -> Prop)
      (f : A -> B) (l : list A) :
  (forall a b, R a b -> S (f a) (f b)) ->
  StronglySorted R l -> StronglySorted S (List.map f l).
Proof.
  intros HRS. induction 1 as [|a l _ IH Hall]; cbn [List.map]; constructor.
  - exact IH.
  - apply List.Forall_forall. intros b Hb.
    apply List.in_map_iff in Hb as (a' & <- & Ha').
    apply HRS. rewrite List.Forall_forall in Hall. exact (Hall a' Ha').
Qed.

Lemma linearFit_scale_rising (s : list (Q * Q)) :
  (2 <= length s)%nat -> StronglySorted rising s ->
  exists k, Stat.linearFit_scale s = Some k /\ 0 < k.
Proof.
  intros Hlen Hs.
  destruct (covariance_sum_rising s Hs) as [_ Hnum]. specialize (Hnum Hlen).
  assert (0 < covariance_sum (List.map (fun xy => (xy.1, xy.1)) s)) as Hden.
  { apply covariance_sum_rising.
    - apply (StronglySorted_map rising); [|exact Hs].
      intros a b [Hx _]. split; exact Hx.
    - rewrite List.length_map. exact Hlen. }
  unfold covariance_sum in Hnum, Hden.
  rewrite !List.map_map in Hden. cbn [fst snd] in Hden.
  unfold Stat.count in Hden. rewrite List.length_map in Hden.
  fold (Stat.count s) in Hden.
  unfold Stat.linearFit_scale.
  destruct (Qeq_bool _ 0) eqn:E.
  - apply Qeq_bool_eq in E. rewrite E in Hden. exfalso. lra.
  - eexists; split; [reflexivity|].
    apply Qlt_shift_div_l; [exact Hden | lra].
Qed.

Lemma pairs_with_time_band (name : string) (p : pixel) (w : list Image) :
  Forall (index_only name p) w ->
  pairs p (List.map with_time_band w) = List.map (sample_of p) w.
Proof.
  induction 1 as [|image w (r & q & Hb & Hq) _ IH]; [reflexivity|].
  cbn [List.map]. unfold pairs in *. cbn [omap list_omap]. rewrite IH.
  unfold sample_of, index_value, with_time_band, Img.addBands.
  cbn [bands]. rewrite Hb. cbn. rewrite Hq. reflexivity.
Qed.

Lemma reduce_linearFit_index_only (sqrtQ : Q -> Q) (name : string) (p : pixel)
      (w : list Image) (cp : gmap string prop_val) :
  Forall (index_only name p) w -> w <> [] ->
  Coll.reduce sqrtQ (mkCollection (List.map with_time_band w) cp) RlinearFit
  = Ok (mkImage (reduce_linearFit (List.map with_time_band w)) ∅).
Proof.
  intros Hall Hne.
  assert (Forall (fun image => band_names (with_time_band image)
                               = [name; Img.fresh_name time_start [name]]) w) as Hn.
  { eapply Forall_impl; [exact Hall|]. intros image (r & q & Hb & _).
    rewrite band_names_with_time_band. unfold band_names. rewrite Hb. reflexivity. }
  destruct Hn as [|first rest Hfirst Hrest]; [congruence|].
  unfold Coll.reduce; cbn [images List.map]. rewrite Hfirst.
  rewrite bool_decide_eq_true_2.
  - reflexivity.
  - apply Forall_forall. intros image Hin.
    apply list_elem_of_In, List.in_map_iff in Hin as (src & <- & Hsrc).
    rewrite List.Forall_forall in Hrest. exact (Hrest src Hsrc).
Qed.

(** The sign of the slope.  Where the window holds at least two images,
    each with the index as its only band, valid at the pixel, and later
    images have a higher index there, the [scale] of [annual_trend] is
    positive at that pixel. *)
Theorem annual_trend_scale_positive (sqrtQ : Q -> Q) (nb : Notebook) (y : Z) (p : pixel) :
  (2 <= length (window nb y))%nat ->
  Forall (index_only (index nb) p) (window nb y) ->
  StronglySorted (rising_in_time p) (window nb y) ->
  exists k, band_value (annual_trend sqrtQ nb y) "scale" p = Some k /\ 0 < k.
Proof.
  intros Hlen Hall Hsorted.
  rewrite annual_trend_unfold. cbv zeta.
  assert (window nb y <> []) as Hne
    by (destruct (window nb y); [cbn in Hlen; lia | congruence]).
  rewrite (reduce_linearFit_index_only sqrtQ (index nb) p _ _ Hall Hne).
  cbn [mbind result_bind band_value Img.set Img.select bands reduce_linearFit
       Img.find_band fst snd String.eqb Ascii.eqb Bool.eqb].
  rewrite (pairs_with_time_band (index nb)) by exact Hall.
  apply linearFit_scale_rising; [rewrite List.length_map; exact Hlen|].
  apply (StronglySorted_map (rising_in_time p)); [|exact Hsorted].
  intros a b [Ht Hv]. unfold rising, sample_of; cbn [fst snd]. split.
  - unfold px_lt in Hv.
    destruct (index_value a p), (index_value b p); cbn; tauto.
  - apply Qmult_lt_compat_r; [reflexivity|]. rewrite <- Zlt_Qlt. exact Ht.
Qed.

Lemma annual_trend_scale_positive_2020 :
  exists k, band_value (annual_trend (fun q => q) (session "max") 2020) "scale" (0, 0)%Z
            = Some k /\ 0 < k.
Proof.
  assert (window (session "max") 2020
          = [rising_image 1592179200000; rising_image 1597449600000]) as Hw
    by (vm_compute; reflexivity).
  apply annual_trend_scale_positive; rewrite Hw.
  - cbn [length]. lia.
  - repeat (apply List.Forall_cons; [eexists; eexists; split; reflexivity|]).
    apply List.Forall_nil.
  - repeat (apply SSorted_cons || apply SSorted_nil
            || apply List.Forall_cons || apply List.Forall_nil);
      vm_compute; split; reflexivity.
Qed.

End Fit.

(** C8, evaluated.  On the series whose index rises at 0.1 per year, the
    [scale] of [annual_trend] is 10 in every year from 2019 to 2023: years
    per unit of index, not index per year.  The temporal-trend cell, which
    selects the time band first, fits 0.1 on the same session. *)
Theorem annual_trend_scale_is_time_per_index (sqrtQ : Q -> Q) (p : pixel) :
  Forall (fun y => px_same (band_value (annual_trend sqrtQ (session "max") y) "scale" p)
                           (Some 10%Q))
         [2019; 2020; 2021; 2022; 2023]
  /\ px_same (band_value (temporal_trend sqrtQ (session "max")) "scale" p)
             (Some 0.1%Q).
Proof.
  split.
  - repeat (apply List.Forall_cons; [vm_compute; reflexivity|]).
    apply List.Forall_nil.
  - vm_compute; reflexivity.
Qed.

(** * Further results *)

(** ** Bands read and bands missing *)

Lemma find_band_elem (name : string) (bs : list Band) :
  is_Some (Img.find_band name bs) <-> name ∈ bs.*1.
Proof.
  induction bs as [|b bs IH]; cbn [Img.find_band fmap list_fmap].
  - split; [intros [? H]; discriminate H | intros H; inversion H].
  - destruct (String.eqb_spec b.1 name) as [<-|Hne].
    + split; [intros _; left | intros _; eexists; reflexivity].
    + rewrite IH. split; [intros H; right; exact H|].
      intros H. apply elem_of_cons in H as [H|H]; [congruence | exact H].
Qed.

Lemma select_returns (image : Image) (name : string) :
  returns (Img.select image name) <-> name ∈ band_names image.
Proof.
  unfold band_names. rewrite <- find_band_elem. unfold Img.select, returns.
  destruct (Img.find_band name (bands image)) as [b|].
  - split; [intros _; eexists; reflexivity | intros _; eexists; reflexivity].
  - split; [intros [? H]; discriminate H | intros [? H]; discriminate H].
Qed.

Lemma select_missing (image : Image) (name : string) :
  name ∉ band_names image ->
  Img.select image name = Raise (EEException (BandNotFound name)).
Proof.
  intros H. unfold Img.select.
  destruct (Img.find_band name (bands image)) as [b|] eqn:E; [|reflexivity].
  exfalso. apply H. apply find_band_elem. rewrite E. eexists; reflexivity.
Qed.

Lemma returns_Ok {A} (a : A) : returns (Ok a).
Proof. exists a; reflexivity. Qed.

Lemma not_returns_Raise {A} (e : exn) : ~ returns (@Raise A e).
Proof. intros [a H]; discriminate H. Qed.

Ltac settle_returns :=
  simpl;
  repeat match goal with
    | |- _ <-> _ => split
    | |- _ -> _ => intro
    | |- _ /\ _ => split
    | |- returns (Ok _) => apply returns_Ok
    | H : returns (Raise _) |- _ => exfalso; exact (not_returns_Raise _ H)
    | H : _ /\ _ |- _ => destruct H
    end.

(** X1.  A masking step raises exactly when a band it reads is missing,
    and the error names that band: [QA60] for the cloud step,
    [MSK_SNWPRB] for the snow step, [B4], [B3] and [B2] (the first one
    missing, in that order) for the white step.  The water step reads only
    the global water mask: it returns for every image as soon as that has a
    [water_mask] band. *)
Theorem masking_needs_bands (waterMask image : Image) :
  (returns (maskS2clouds image) <-> "QA60" ∈ band_names image)
  /\ ("QA60" ∉ band_names image ->
      maskS2clouds image = Raise (EEException (BandNotFound "QA60")))
  /\ (returns (maskS2snow image) <-> "MSK_SNWPRB" ∈ band_names image)
  /\ ("MSK_SNWPRB" ∉ band_names image ->
      maskS2snow image = Raise (EEException (BandNotFound "MSK_SNWPRB")))
  /\ (returns (maskWhite image) <->
      "B4" ∈ band_names image /\ "B3" ∈ band_names image
      /\ "B2" ∈ band_names image)
  /\ ("B4" ∉ band_names image ->
      maskWhite image = Raise (EEException (BandNotFound "B4")))
  /\ ("B4" ∈ band_names image -> "B3" ∉ band_names image ->
      maskWhite image = Raise (EEException (BandNotFound "B3")))
  /\ ("B4" ∈ band_names image -> "B3" ∈ band_names image ->
      "B2" ∉ band_names image ->
      maskWhite image = Raise (EEException (BandNotFound "B2")))
  /\ (returns (maskWater waterMask image) <->
      "water_mask" ∈ band_names waterMask).
Proof.
  repeat match goal with |- _ /\ _ => split end.
  - rewrite <- select_returns. unfold maskS2clouds.
    destruct (Img.select image "QA60"); settle_returns.
  - intros H. unfold maskS2clouds. rewrite (select_missing _ _ H). reflexivity.
  - rewrite <- select_returns. unfold maskS2snow.
    destruct (Img.select image "MSK_SNWPRB"); settle_returns.
  - intros H. unfold maskS2snow. rewrite (select_missing _ _ H). reflexivity.
  - rewrite <- !select_returns. unfold maskWhite.
    destruct (Img.select image "B4"), (Img.select image "B3"),
      (Img.select image "B2"); settle_returns.
  - intros H. unfold maskWhite. rewrite (select_missing _ _ H). reflexivity.
  - intros H4 H3. apply select_returns in H4 as [R HR].
    unfold maskWhite. rewrite HR, (select_missing _ _ H3). reflexivity.
  - intros H4 H3 H2. apply select_returns in H4 as [R HR].
    apply select_returns in H3 as [G HG].
    unfold maskWhite. rewrite HR, HG, (select_missing _ _ H2). reflexivity.
  - rewrite <- select_returns. unfold maskWater.
    destruct (Img.select waterMask "water_mask"); settle_returns.
Qed.

(** ** What the cloud step removes *)

Lemma land_bit_set (a n : Z) :
  0 <= n -> Z.testbit a n = true -> Z.land a (Z.shiftl 1 n) = Z.shiftl 1 n.
Proof.
  intros Hn Hbit. rewrite Z.shiftl_1_l. apply Z.bits_inj'. intros m Hm.
  rewrite Z.land_spec, (Z.pow2_bits_eqb n m Hn).
  destruct (Z.eqb_spec n m) as [<-|_]; [rewrite Hbit|]; apply andb_false_r || reflexivity.
Qed.

Lemma cloud_mask_updates (qa : Band) (p : pixel) (v : option Q) :
  Px.updateMask
    ((lift_band2 Px.And
        (lift_band (Px.eq 0) (lift_band (Px.bitwiseAnd (Z.shiftl 1 10)) qa))
        (lift_band (Px.eq 0) (lift_band (Px.bitwiseAnd (Z.shiftl 1 11)) qa))).2 p) v
  = if clear_px (qa.2 p) then v else None.
Proof.
  cbn [lift_band lift_band2 fst snd]. unfold clear_px.
  destruct (qa.2 p) as [q|]; [|reflexivity].
  unfold Px.bitwiseAnd; cbn [mbind option_bind].
  destruct (Z.testbit (Qfloor q) 10) eqn:E10, (Z.testbit (Qfloor q) 11) eqn:E11;
    rewrite ?(land_bit_set _ 10), ?(land_bit_set _ 11),
            ?(land_bit_clear _ 10), ?(land_bit_clear _ 11) by (lia || assumption);
    reflexivity.
Qed.

(** X2.  What [maskS2clouds] makes of every pixel: where [QA60] is valid
    with the cloud bit and the cirrus bit both zero, each band holds the
    input value divided by 10000; everywhere else (a bit set, or [QA60]
    itself masked) each band is masked.  The bands keep their names and
    their order. *)
Theorem maskS2clouds_pixels (image out : Image) :
  maskS2clouds image = Ok out ->
  exists qa, Img.select image "QA60" = Ok qa
    /\ forall (i : nat) (b : Band), bands image !! i = Some b ->
         exists b', bands out !! i = Some b' /\ b'.1 = b.1
           /\ forall p, b'.2 p = if clear_px (qa.2 p)
                                then (fun v => v / 10000)%Q <$> b.2 p
                                else None.
Proof.
  intros H. unfold maskS2clouds in H.
  apply bind_Ok_inv in H as (qa & Hsel & H). injection H as <-.
  exists qa. split; [exact Hsel|]. intros i b Hb.
  cbn [Img.copyProperties Img.divide Img.updateMask bands].
  rewrite !list_lookup_fmap, Hb. eexists; split; [reflexivity|].
  split; [reflexivity|]. intros p.
  cbn [lift_band Img.masked_by fst snd]. rewrite cloud_mask_updates.
  destruct (clear_px (qa.2 p)); [destruct (b.2 p)|]; reflexivity.
Qed.

Lemma maskS2clouds_pixels_witness :
  exists out b', maskS2clouds cloudy_image = Ok out
    /\ bands out !! 0%nat = Some b'
    /\ b'.2 (0, 7) = None
    /\ b'.2 (1, 7) = Some (1200 / 10000)%Q.
Proof.
  destruct (maskS2clouds_pixels cloudy_image _ eq_refl) as (qa & Hsel & Hpx).
  injection Hsel as <-.
  destruct (Hpx 0%nat _ eq_refl) as (b' & Hb' & _ & Hval).
  eexists; exists b'. split; [reflexivity|]. split; [exact Hb'|].
  split; [exact (Hval (0, 7)) | exact (Hval (1, 7))].
Defined.

(** ** Steps that only mask *)

Lemma updateMask_only_masks (image : Image) (mask : Band) (pr : gmap string prop_val) :
  only_masks image (mkImage (bands (Img.updateMask image mask)) pr).
Proof.
  split.
  - unfold band_names; cbn [Img.updateMask bands].
    rewrite <- list_fmap_compose. apply list_fmap_ext. intros _ b _. reflexivity.
  - intros i b Hb. cbn [Img.updateMask bands]. rewrite list_lookup_fmap, Hb.
    eexists; split; [reflexivity|]. intros p.
    cbn [Img.masked_by snd]. unfold Px.updateMask.
    destruct (mask.2 p) as [q|]; [destruct (Px.nonzero q)|]; auto.
Qed.

(** X3.  The snow, white and water steps only mask: the image they return
    has the bands of the input under the same names and in the same order,
    and every pixel of it is either masked or holds the value it had; no
    value is altered and no masked pixel becomes valid. *)
Theorem mask_steps_only_mask (waterMask image out : Image) :
  maskS2snow image = Ok out \/ maskWhite image = Ok out
  \/ maskWater waterMask image = Ok out ->
  only_masks image out.
Proof.
  intros [H|[H|H]].
  - unfold maskS2snow in H. apply bind_Ok_inv in H as (snw & _ & H).
    injection H as <-. apply updateMask_only_masks.
  - unfold maskWhite in H. apply bind_Ok_inv in H as (R & _ & H).
    apply bind_Ok_inv in H as (G & _ & H).
    apply bind_Ok_inv in H as (B & _ & H).
    injection H as <-. apply updateMask_only_masks.
  - unfold maskWater in H. apply bind_Ok_inv in H as (wm & _ & H).
    injection H as <-. apply (updateMask_only_masks image _ (props image)).
Qed.

Lemma mask_steps_only_mask_witness :
  exists out, maskS2snow cloudy_image = Ok out /\ only_masks cloudy_image out.
Proof.
  eexists; split; [reflexivity|].
  apply (mask_steps_only_mask water_image cloudy_image). left; reflexivity.
Defined.
